(** * md2conf: the name matcher ([md2conf/matcher.py])

    A shallow embedding of [MatcherOptions] and [Matcher] and the properties
    of exclusion, inclusion, filtering, rule loading and directory scanning.

    Python strings are modelled as [string]: a character is a code point
    below 256.  The standard-library functions the module calls
    ([str.startswith], [str.endswith], [str.splitlines], [fnmatch.fnmatch],
    [os.path.exists], [open]/[read], [os.scandir], [pathlib]'s [/]) are
    modelled in their own modules below, as CPython on a POSIX system
    behaves. *)

From Stdlib Require Import Bool Arith Lia List Ascii String.
Import ListNotations.

Local Open Scope list_scope.
Local Open Scope string_scope.

(* ------------------------------------------------------------------ *)
(** ** Python string operations *)

Module PyStr.

(** [s.startswith(prefix)]. *)
Fixpoint startswith (s prefix : string) {struct prefix} : bool :=
  match prefix with
  | EmptyString => true
  | String p prefix' =>
      match s with
      | EmptyString => false
      | String c s' => Ascii.eqb c p && startswith s' prefix'
      end
  end.

(** [s[n:]]. *)
Fixpoint drop (n : nat) (s : string) : string :=
  match n with
  | O => s
  | S n' => match s with EmptyString => EmptyString | String _ s' => drop n' s' end
  end.

(** [s[:n]]. *)
Fixpoint take (n : nat) (s : string) : string :=
  match n with
  | O => EmptyString
  | S n' => match s with EmptyString => EmptyString | String c s' => String c (take n' s') end
  end.

(** [s.endswith(suffix)]: the tail of [s] of the suffix's length is compared
    with the suffix. *)
Definition endswith (s suffix : string) : bool :=
  (String.length suffix <=? String.length s)%nat
  && String.eqb (drop (String.length s - String.length suffix) s) suffix.

(** The line boundaries of [str.splitlines] among the code points below 256:
    LF, VT, FF, CR, FS, GS, RS and NEL. *)
Definition LF : ascii := "010"%char.
Definition CR : ascii := "013"%char.

Definition is_linebreak (c : ascii) : bool :=
  let n := nat_of_ascii c in
  ((10 <=? n) && (n <=? 13) || (28 <=? n) && (n <=? 30) || (n =? 133))%nat.

(** [s.splitlines()]: [line] is the text since the last boundary.  A boundary
    ends the current line (CR LF counts as one boundary); what follows the last
    boundary is a line only when it is not empty. *)
Fixpoint splitlines_from (line s : string) : list string :=
  match s with
  | EmptyString => match line with EmptyString => [] | _ => [line] end
  | String c s' =>
      if is_linebreak c then
        if Ascii.eqb c CR then
          match s' with
          | String d s'' =>
              if Ascii.eqb d LF then line :: splitlines_from EmptyString s''
              else line :: splitlines_from EmptyString s'
          | EmptyString => line :: splitlines_from EmptyString s'
          end
        else line :: splitlines_from EmptyString s'
      else splitlines_from (line ++ String c EmptyString) s'
  end.

Definition splitlines (s : string) : list string := splitlines_from EmptyString s.

(** Truthiness of a string: [if s]. *)
Definition truthy (s : string) : bool :=
  match s with EmptyString => false | String _ _ => true end.

End PyStr.

(* ------------------------------------------------------------------ *)
(** ** [fnmatch.fnmatch] on a POSIX system

    [os.path.normcase] is the identity there, so [fnmatch(name, pat)] is
    whether the regular expression [translate(pat)] matches the whole of
    [name].  [translate] (CPython 3.11) is followed clause by clause; the
    regular expression it builds is represented by its list of tokens.  Each
    ['*'] gives a [Star]: CPython keeps one of a run of stars and compiles a
    star to [.*] or to a shortest match that is not given up, which accepts
    the same names (see [glob_match_star_star] for the run). *)

Module Fnmatch.

Inductive set_item : Type :=
| Single (c : ascii)
| Range (lo hi : ascii).

(** The pieces of the regular expression: [.*], [.], an escaped character,
    a character class, and ['(?!)'] which matches nothing. *)
Inductive token : Type :=
| Star
| AnyChar
| Lit (c : ascii)
| CharSet (negated : bool) (items : list set_item)
| Never.

(** The [while j < n and pat[j] != ']'] loop: the text before the first
    [']'], if there is one. *)
Fixpoint until_close (s : string) : option string :=
  match s with
  | EmptyString => None
  | String c s' =>
      if Ascii.eqb c "]" then Some EmptyString
      else match until_close s' with
           | Some body => Some (String c body)
           | None => None
           end
  end.

(** The search of the closing bracket from [rest = pat[i:]]: a leading ['!']
    and then a leading [']'] are skipped.  The result is [stuff = pat[i:j]],
    or [None] when [j >= n]. *)
Definition find_close (rest : string) : option string :=
  let '(bang, r1) :=
    match rest with
    | String "!" r => ("!", r)
    | _ => (EmptyString, rest)
    end in
  let '(brk, r2) :=
    match r1 with
    | String "]" r => ("]", r)
    | _ => (EmptyString, r1)
    end in
  match until_close r2 with
  | Some body => Some (bang ++ brk ++ body)
  | None => None
  end.

(** [c in s]. *)
Fixpoint contains (c : ascii) (s : string) : bool :=
  match s with
  | EmptyString => false
  | String d s' => Ascii.eqb d c || contains c s'
  end.

(** [s.replace(c, new)] for a single character [c]. *)
Fixpoint replace_char (c : ascii) (new : string) (s : string) : string :=
  match s with
  | EmptyString => EmptyString
  | String d s' => (if Ascii.eqb d c then new else String d EmptyString) ++ replace_char c new s'
  end.

(** [s[0]] and [s[-1]], when [s] is not empty. *)
Definition first_char (s : string) : option ascii :=
  match s with
  | EmptyString => None
  | String c _ => Some c
  end.

Fixpoint last_char (s : string) : option ascii :=
  match s with
  | EmptyString => None
  | String c EmptyString => Some c
  | String _ s' => last_char s'
  end.

(** [s[:-1]] and [s[1:]]. *)
Fixpoint but_last (s : string) : string :=
  match s with
  | EmptyString => EmptyString
  | String _ EmptyString => EmptyString
  | String c s' => String c (but_last s')
  end.

Definition but_first (s : string) : string :=
  match s with
  | EmptyString => EmptyString
  | String _ s' => s'
  end.

(** The [while True] loop that cuts [stuff] at its range hyphens.  [guard]
    counts the characters that [pat.find('-', k, j)] does not look at yet, and
    [cur] is [pat[i:]] up to the character at hand.  The result is [chunks]
    and the last [chunk = pat[i:j]]. *)
Fixpoint chunks_from (guard : nat) (cur s : string) : list string * string :=
  match s with
  | EmptyString => ([], cur)
  | String c s' =>
      match guard with
      | S g => chunks_from g (cur ++ String c EmptyString) s'
      | O =>
          if Ascii.eqb c "-" then
            let '(chunks, chunk) := chunks_from 2 EmptyString s' in
            (cur :: chunks, chunk)
          else chunks_from 0 (cur ++ String c EmptyString) s'
      end
  end.

(** [chunks[-1] += '-'] (the loop has found a hyphen when this runs, so
    [chunks] is not empty). *)
Fixpoint append_hyphen_to_last (chunks : list string) : list string :=
  match chunks with
  | [] => []
  | [c] => [c ++ "-"]
  | c :: chunks' => c :: append_hyphen_to_last chunks'
  end.

(** The chunks of [stuff]: the search starts at [i+2] after a leading ['!']
    and at [i+1] otherwise; an empty last chunk gives its hyphen back to the
    chunk before it. *)
Definition split_chunks (stuff : string) : list string :=
  let guard := match stuff with String "!" _ => 2 | _ => 1 end in
  let '(chunks, chunk) := chunks_from guard EmptyString stuff in
  match chunk with
  | EmptyString => append_hyphen_to_last chunks
  | _ => (chunks ++ [chunk])%list
  end.

(** [chunks[k-1][-1] > chunks[k][0]] (no chunk is empty where the loop
    compares). *)
Definition empty_range (before after : string) : bool :=
  match last_char before, first_char after with
  | Some lo, Some hi => (nat_of_ascii hi <? nat_of_ascii lo)%nat
  | _, _ => false
  end.

(** The loop [for k in range(len(chunks)-1, 0, -1)] that removes the empty
    ranges, from the last chunk down to the first. *)
Fixpoint remove_empty_ranges (chunks : list string) : list string :=
  match chunks with
  | [] => []
  | c :: chunks' =>
      match remove_empty_ranges chunks' with
      | [] => [c]
      | d :: rest =>
          if empty_range c d then (but_last c ++ but_first d) :: rest
          else c :: d :: rest
      end
  end.

(** [s.replace('\\', r'\\').replace('-', r'\-')]. *)
Definition escape_chunk (s : string) : string :=
  replace_char "-" "\-" (replace_char "\" "\\" s).

(** [re.sub(r'([&~|])', r'\\\1', stuff)]. *)
Definition escape_set_operations (s : string) : string :=
  replace_char "|" "\|" (replace_char "~" "\~" (replace_char "&" "\&" s)).

(** The text that [translate] puts between the brackets, before it looks at
    its first character. *)
Definition set_text (stuff : string) : string :=
  escape_set_operations
    (if contains "-" stuff
     then String.concat "-" (map escape_chunk (remove_empty_ranges (split_chunks stuff)))
     else replace_char "\" "\\" stuff).

(** How [re] reads the text of a character class: a backslash and the
    character after it are one escaped character (every backslash of the text
    has a character after it). *)
Fixpoint class_chars (s : string) : list (bool * ascii) :=
  match s with
  | EmptyString => []
  | String c s' =>
      if Ascii.eqb c "\" then
        match s' with
        | String d s'' => (true, d) :: class_chars s''
        | EmptyString => [(false, c)]
        end
      else (false, c) :: class_chars s'
  end.

(** The members of the class: a plain hyphen between two characters makes a
    range, every other character stands for itself.  (The text [translate]
    builds has [']'] in the first place only, where it is literal, and its
    escapes are all of punctuation.) *)
Fixpoint class_items (cs : list (bool * ascii)) : list set_item :=
  match cs with
  | [] => []
  | (_, a) :: rest =>
      match rest with
      | (false, "-"%char) :: (_, b) :: rest' => Range a b :: class_items rest'
      | _ => Single a :: class_items rest
      end
  end.

(** The token for [stuff]: ['(?!)'] for an empty text, ['.'] for the text
    ['!'], a negated class when the text starts with ['!'], and a class
    otherwise (with a first ['^'] or ['['] escaped). *)
Definition char_set (stuff : string) : token :=
  match set_text stuff with
  | EmptyString => Never
  | String "!" EmptyString => AnyChar
  | String "!" text => CharSet true (class_items (class_chars text))
  | String c text =>
      if Ascii.eqb c "^" || Ascii.eqb c "["
      then CharSet false (class_items (class_chars ("\" ++ String c text)))
      else CharSet false (class_items (class_chars (String c text)))
  end.

(** The main loop of [translate]; [skip] counts the characters of a bracket
    expression still to step over ([i = j+1]). *)
Fixpoint translate_from (skip : nat) (pat : string) : list token :=
  match pat with
  | EmptyString => []
  | String c rest =>
      match skip with
      | S k => translate_from k rest
      | O =>
          if Ascii.eqb c "*" then Star :: translate_from 0 rest
          else if Ascii.eqb c "?" then AnyChar :: translate_from 0 rest
          else if Ascii.eqb c "[" then
            match find_close rest with
            | None => Lit "[" :: translate_from 0 rest
            | Some stuff => char_set stuff :: translate_from (S (String.length stuff)) rest
            end
          else Lit c :: translate_from 0 rest
      end
  end.

Definition translate (pat : string) : list token := translate_from 0 pat.

(** Membership in a character class: a range whose start is above its end has
    no member. *)
Definition item_has (c : ascii) (it : set_item) : bool :=
  match it with
  | Single d => Ascii.eqb c d
  | Range lo hi =>
      ((nat_of_ascii lo <=? nat_of_ascii c) && (nat_of_ascii c <=? nat_of_ascii hi))%nat
  end.

Definition in_set (c : ascii) (items : list set_item) : bool :=
  existsb (item_has c) items.

(** [re.match] of the translated pattern, which ends in [\Z]: the tokens must
    use up the whole name.  ['*'] is [.*] and ['?'] is [.] under the [s]
    flag, so both accept every character. *)
Fixpoint glob_match (toks : list token) (s : string) : bool :=
  match toks with
  | [] => match s with EmptyString => true | String _ _ => false end
  | Star :: toks' =>
      (fix star (s : string) : bool :=
         glob_match toks' s
         || match s with
            | EmptyString => false
            | String _ s' => star s'
            end) s
  | AnyChar :: toks' =>
      match s with
      | EmptyString => false
      | String _ s' => glob_match toks' s'
      end
  | Lit c :: toks' =>
      match s with
      | EmptyString => false
      | String d s' => Ascii.eqb d c && glob_match toks' s'
      end
  | CharSet negated items :: toks' =>
      match s with
      | EmptyString => false
      | String d s' => xorb negated (in_set d items) && glob_match toks' s'
      end
  | Never :: _ => false
  end.

Definition fnmatch (name pat : string) : bool := glob_match (translate pat) name.

End Fnmatch.

(* ------------------------------------------------------------------ *)
(** ** The file system: [pathlib], [os.path.exists], [open], [os.scandir] *)

Module Os.

(** The exceptions the calls below raise: four subclasses of [OSError], and
    [UnicodeDecodeError] (a [ValueError]) for a file whose bytes do not decode
    to text. *)
Inductive Exception : Type :=
| FileNotFoundError
| NotADirectoryError
| IsADirectoryError
| PermissionError
| UnicodeDecodeError.

(** A call either returns or raises. *)
Inductive result (A : Type) : Type :=
| Ok (a : A)
| Raise (e : Exception).

Arguments Ok {A} a.
Arguments Raise {A} e.

Definition is_ok {A : Type} (r : result A) : bool :=
  match r with Ok _ => true | Raise _ => false end.

(** A file system is a tree.  [readable] is the permission to read a file's
    text or to list a directory; a file's [content] is the text that [read()]
    returns, or [None] when the bytes of the file do not decode. *)
#[local] Unset Elimination Schemes.
Inductive node : Type :=
| File (readable : bool) (content : option string)
| Dir (readable : bool) (children : list (string * node)).
#[local] Set Elimination Schemes.

(** A path is its components, counted from the root of the tree. *)
Definition Path : Type := list string.

(** The components of a path given as text: split on ['/'], with empty and
    ['.'] components dropped, as [pathlib] parses it. *)
Fixpoint parts_from (part s : string) : list string :=
  let close :=
    match part with
    | EmptyString => []
    | _ => if String.eqb part "." then [] else [part]
    end in
  match s with
  | EmptyString => close
  | String c s' =>
      if Ascii.eqb c "/" then (close ++ parts_from EmptyString s')%list
      else parts_from (part ++ String c EmptyString) s'
  end.

Definition parts (s : string) : list string := parts_from EmptyString s.

(** [directory / source]: an absolute [source] replaces [directory]. *)
Definition joinpath (directory : Path) (source : string) : Path :=
  if PyStr.startswith source "/" then parts source
  else (directory ++ parts source)%list.

Fixpoint lookup_child (name : string) (children : list (string * node)) : option node :=
  match children with
  | [] => None
  | (n, child) :: children' =>
      if String.eqb n name then Some child else lookup_child name children'
  end.

(** Path resolution from the node [cur], whose ancestors are [up] (nearest
    first).  ['..'] goes to the parent, and stays at the root. *)
Fixpoint walk (up : list node) (cur : node) (p : Path) : result node :=
  match p with
  | [] => Ok cur
  | name :: p' =>
      match cur with
      | File _ _ => Raise NotADirectoryError
      | Dir _ children =>
          if String.eqb name ".." then
            match up with
            | [] => walk [] cur p'
            | parent :: up' => walk up' parent p'
            end
          else
            match lookup_child name children with
            | None => Raise FileNotFoundError
            | Some child => walk (cur :: up) child p'
            end
      end
  end.

Definition resolve (fs : node) (p : Path) : result node := walk [] fs p.

(** [os.path.exists(p)]: whether [os.stat(p)] succeeds. *)
Definition path_exists (fs : node) (p : Path) : bool := is_ok (resolve fs p).

(** [with open(p, "r") as f: f.read()]. *)
Definition read_text (fs : node) (p : Path) : result string :=
  match resolve fs p with
  | Raise e => Raise e
  | Ok (Dir _ _) => Raise IsADirectoryError
  | Ok (File false _) => Raise PermissionError
  | Ok (File true None) => Raise UnicodeDecodeError
  | Ok (File true (Some content)) => Ok content
  end.

(** An [os.DirEntry]: its name and whether it is a directory. *)
Record DirEntry : Type := { name : string; is_dir : bool }.

Definition entry_of (child : string * node) : DirEntry :=
  {| name := fst child;
     is_dir := match snd child with Dir _ _ => true | File _ _ => false end |}.

(** [os.scandir(p)]: the entries of the directory itself, in the directory's
    order. *)
Definition scandir (fs : node) (p : Path) : result (list DirEntry) :=
  match resolve fs p with
  | Raise e => Raise e
  | Ok (File _ _) => Raise NotADirectoryError
  | Ok (Dir false _) => Raise PermissionError
  | Ok (Dir true children) => Ok (map entry_of children)
  end.

End Os.

(* ------------------------------------------------------------------ *)
(** ** [MatcherOptions] and [Matcher] *)

Import PyStr Fnmatch.

Record MatcherOptions : Type := {
  source : string;
  extension : option string
}.

(** [MatcherOptions.__post_init__]. *)
Definition post_init (self : MatcherOptions) : MatcherOptions :=
  match extension self with
  | Some ext =>
      if negb (startswith ext ".")
      then {| source := source self; extension := Some ("." ++ ext) |}
      else self
  | None => self
  end.

(** [MatcherOptions(source, extension)]: the generated [__init__] stores the
    fields and calls [__post_init__]. *)
Definition new_MatcherOptions (src : string) (ext : option string) : MatcherOptions :=
  post_init {| source := src; extension := ext |}.

Record Matcher : Type := {
  options : MatcherOptions;
  rules : list string
}.

(** [[rule for rule in rules if rule and not rule.startswith("#")]]. *)
Fixpoint keep_rules (lines : list string) : list string :=
  match lines with
  | [] => []
  | rule :: lines' =>
      if truthy rule && negb (startswith rule "#")
      then rule :: keep_rules lines'
      else keep_rules lines'
  end.

(** The rules read from the text of a rules file. *)
Definition load_rules (text : string) : list string := keep_rules (splitlines text).

(** [Matcher.__init__]. *)
Definition new_Matcher (fs : Os.node) (opts : MatcherOptions) (directory : Os.Path)
  : Os.result Matcher :=
  if Os.path_exists fs (Os.joinpath directory (source opts)) then
    match Os.read_text fs (Os.joinpath directory (source opts)) with
    | Os.Ok text => Os.Ok {| options := opts; rules := load_rules text |}
    | Os.Raise e => Os.Raise e
    end
  else Os.Ok {| options := opts; rules := [] |}.

(** [Matcher.extension_matches]. *)
Definition extension_matches (self : Matcher) (name : string) : bool :=
  match extension (options self) with
  | None => true
  | Some ext => endswith name ext
  end.

(** The [for rule in self.rules] loop of [is_excluded], with its [else]. *)
Fixpoint any_rule_matches (name : string) (rs : list string) : bool :=
  match rs with
  | [] => false
  | rule :: rs' => if fnmatch name rule then true else any_rule_matches name rs'
  end.

(** [Matcher.is_excluded]. *)
Definition is_excluded (self : Matcher) (name : string) : bool :=
  if startswith name "." then true
  else if negb (extension_matches self name) then true
  else any_rule_matches name (rules self).

(** [Matcher.is_included]. *)
Definition is_included (self : Matcher) (name : string) : bool :=
  negb (is_excluded self name).

(** [Matcher.filter]: [[item for item in items if self.is_included(item)]]. *)
Fixpoint filter (self : Matcher) (items : list string) : list string :=
  match items with
  | [] => []
  | item :: items' =>
      if is_included self item then item :: filter self items'
      else filter self items'
  end.

(** [Matcher.scandir]. *)
Definition scandir (fs : Os.node) (self : Matcher) (path : Os.Path)
  : Os.result (list string) :=
  match Os.scandir fs path with
  | Os.Ok entries => Os.Ok (filter self (map Os.name entries))
  | Os.Raise e => Os.Raise e
  end.

(* ------------------------------------------------------------------ *)
(** ** What the specification's words mean *)

(** [out] is exactly the subsequence of [inp] made of the elements that
    [keep] accepts, in the order of [inp]. *)
Inductive Selected {A : Type} (keep : A -> bool) : list A -> list A -> Prop :=
| Selected_nil : Selected keep [] []
| Selected_keep (x : A) (inp out : list A) :
    keep x = true -> Selected keep inp out -> Selected keep (x :: inp) (x :: out)
| Selected_drop (x : A) (inp out : list A) :
    keep x = false -> Selected keep inp out -> Selected keep (x :: inp) out.

(** Shell-glob matching of a whole name: ['*'] stands for any text, ['?'] and
    a bracket expression for one character, and nothing of the name is left
    over. *)
Inductive Matches : list token -> string -> Prop :=
| Matches_nil : Matches [] EmptyString
| Matches_star (u v : string) (toks : list token) :
    Matches toks v -> Matches (Star :: toks) (u ++ v)
| Matches_any (c : ascii) (s : string) (toks : list token) :
    Matches toks s -> Matches (AnyChar :: toks) (String c s)
| Matches_lit (c : ascii) (s : string) (toks : list token) :
    Matches toks s -> Matches (Lit c :: toks) (String c s)
| Matches_set (negated : bool) (items : list set_item) (c : ascii) (s : string)
    (toks : list token) :
    xorb negated (in_set c items) = true ->
    Matches toks s -> Matches (CharSet negated items :: toks) (String c s).

(** The lines the specification keeps: not of length zero, and not starting
    with ['#']. *)
Definition kept_line (line : string) : bool :=
  match line with
  | EmptyString => false
  | String c _ => negb (Ascii.eqb c "#")
  end.

(** Text without a line boundary. *)
Fixpoint no_linebreak (s : string) : bool :=
  match s with
  | EmptyString => true
  | String c s' => negb (is_linebreak c) && no_linebreak s'
  end.

(** A pattern without ['*'], ['?'] and ['[']: it stands for its own text. *)
Fixpoint plain (pat : string) : bool :=
  match pat with
  | EmptyString => true
  | String c pat' =>
      negb (Ascii.eqb c "*" || Ascii.eqb c "?" || Ascii.eqb c "[") && plain pat'
  end.

(** A line of blanks: not empty, and made of spaces and tabs only. *)
Fixpoint all_blank (s : string) : bool :=
  match s with
  | EmptyString => true
  | String c s' => (Ascii.eqb c " " || Ascii.eqb c "009") && all_blank s'
  end.

Definition whitespace_only (s : string) : Prop :=
  s <> EmptyString /\ all_blank s = true.

(** The small tree the examples run on:
    [docs/] holds [a.md], [.mdignore], the directory [img/] (with [logo.png]
    inside) and the unreadable directory [private/]. *)
Definition example_fs : Os.node :=
  Os.Dir true
    [("docs",
      Os.Dir true
        [("a.md", Os.File true (Some "# title"));
         (".mdignore",
          Os.File true (Some ("# ignore drafts" ++ String LF (String LF "draft*"))));
         ("draft1.md", Os.File true (Some "wip"));
         ("img", Os.Dir true [("logo.png", Os.File true (Some ""))]);
         ("private", Os.Dir false [])]);
     ("empty", Os.Dir true [])].


(* ------------------------------------------------------------------ *)
(** ** Lemmas on strings *)

Section StringFacts.

Lemma append_empty_r (s : string) : s ++ EmptyString = s.
Proof. induction s as [|c s IH]; simpl; [reflexivity | now rewrite IH]. Qed.

Lemma append_assoc (s t u : string) : (s ++ t) ++ u = s ++ (t ++ u).
Proof. induction s as [|c s IH]; simpl; [reflexivity | now rewrite IH]. Qed.

Lemma length_append (s t : string) :
  String.length (s ++ t) = String.length s + String.length t.
Proof. induction s as [|c s IH]; simpl; [reflexivity | now rewrite IH]. Qed.

Lemma startswith_spec (s p : string) :
  startswith s p = true <-> exists t, s = p ++ t.
Proof.
  revert s. induction p as [|a p IH]; intros s; simpl.
  - split; [intros _; now exists s | reflexivity].
  - destruct s as [|c s].
    + split; [discriminate | intros [t Ht]; discriminate].
    + rewrite andb_true_iff, Ascii.eqb_eq, IH. split.
      * intros [-> [t ->]]. now exists t.
      * intros [t Ht]. injection Ht as -> ->. split; [reflexivity | now exists t].
Qed.

Lemma startswith_char (s : string) (a : ascii) :
  startswith s (String a EmptyString) = true <-> exists t, s = String a t.
Proof. rewrite startswith_spec. simpl. reflexivity. Qed.

Lemma take_drop (n : nat) (s : string) : take n s ++ drop n s = s.
Proof.
  revert s. induction n as [|n IH]; intros s; simpl; [reflexivity|].
  destruct s as [|c s]; simpl; [reflexivity | now rewrite IH].
Qed.

Lemma drop_append (p q : string) : drop (String.length p) (p ++ q) = q.
Proof. induction p as [|c p IH]; simpl; [reflexivity | exact IH]. Qed.

(** [endswith] is the suffix relation. *)
Lemma endswith_spec (s suffix : string) :
  endswith s suffix = true <-> exists p, s = p ++ suffix.
Proof.
  unfold endswith. rewrite andb_true_iff, Nat.leb_le, String.eqb_eq. split.
  - intros [_ H]. remember (String.length s - String.length suffix) as n eqn:En.
    exists (take n s). rewrite <- H. symmetry. apply take_drop.
  - intros [p ->]. rewrite length_append. split; [lia|].
    replace (String.length p + String.length suffix - String.length suffix)
      with (String.length p) by lia.
    apply drop_append.
Qed.

Lemma endswith_false (s suffix : string) :
  endswith s suffix = false <-> ~ exists p, s = p ++ suffix.
Proof.
  rewrite <- endswith_spec. destruct (endswith s suffix).
  - split; [discriminate | intros H; now destruct H].
  - split; [intros _ E; discriminate | reflexivity].
Qed.

Lemma no_linebreak_append (s t : string) :
  no_linebreak (s ++ t) = no_linebreak s && no_linebreak t.
Proof.
  induction s as [|c s IH]; simpl; [reflexivity|].
  now rewrite IH, andb_assoc.
Qed.

(** Text without a boundary is one line, or no line when it is empty. *)
Lemma splitlines_from_plain (s line : string) :
  no_linebreak s = true ->
  splitlines_from line s
  = match line ++ s with EmptyString => [] | _ => [line ++ s] end.
Proof.
  revert line. induction s as [|c s IH]; intros line H; simpl.
  - rewrite append_empty_r. reflexivity.
  - simpl in H. apply andb_true_iff in H as [Hc Hs].
    apply negb_true_iff in Hc. rewrite Hc, (IH _ Hs), append_assoc. reflexivity.
Qed.

(** A line feed ends the line before it. *)
Lemma splitlines_from_lf (l line rest : string) :
  no_linebreak l = true ->
  splitlines_from line (l ++ String LF rest) = (line ++ l) :: splitlines rest.
Proof.
  revert line. induction l as [|c l IH]; intros line H; simpl.
  - rewrite append_empty_r. reflexivity.
  - simpl in H. apply andb_true_iff in H as [Hc Hl].
    apply negb_true_iff in Hc. rewrite Hc, (IH _ Hl), append_assoc. reflexivity.
Qed.

(** No line holds a line boundary. *)
Lemma splitlines_from_no_linebreak (n : nat) :
  forall s line : string,
    String.length s <= n ->
    no_linebreak line = true ->
    Forall (fun l => no_linebreak l = true) (splitlines_from line s).
Proof.
  induction n as [|n IH]; intros s line Hn Hl.
  - destruct s; [|simpl in Hn; lia]. simpl.
    destruct line; [constructor | repeat constructor; exact Hl].
  - destruct s as [|c s].
    + simpl. destruct line; [constructor | repeat constructor; exact Hl].
    + simpl in Hn. assert (Hs : String.length s <= n) by lia.
      cbn [splitlines_from]. destruct (is_linebreak c) eqn:Hc.
      * assert (Hrest : Forall (fun l => no_linebreak l = true)
                          (line :: splitlines_from EmptyString s)).
        { constructor; [exact Hl | now apply IH]. }
        destruct (Ascii.eqb c CR); [|exact Hrest].
        destruct s as [|d s]; [exact Hrest|].
        destruct (Ascii.eqb d LF); [|exact Hrest].
        constructor; [exact Hl|]. apply IH; [simpl in Hs; lia | reflexivity].
      * apply IH; [exact Hs|]. rewrite no_linebreak_append, Hl. simpl.
        now rewrite Hc.
Qed.

Lemma splitlines_no_linebreak (s : string) :
  Forall (fun l => no_linebreak l = true) (splitlines s).
Proof. now apply (splitlines_from_no_linebreak (String.length s)). Qed.

End StringFacts.

(** ** Lemmas on glob matching *)

Section GlobFacts.

Lemma glob_match_star (toks : list token) (s : string) :
  glob_match (Star :: toks) s
  = glob_match toks s
    || match s with
       | EmptyString => false
       | String _ s' => glob_match (Star :: toks) s'
       end.
Proof. destruct s; reflexivity. Qed.

Lemma glob_match_sound (toks : list token) :
  forall s, glob_match toks s = true -> Matches toks s.
Proof.
  induction toks as [|t toks IH]; intros s H.
  - destruct s; [constructor | discriminate].
  - destruct t as [| |c|negated items|].
    + induction s as [|c s IHs].
      * rewrite glob_match_star, orb_false_r in H.
        apply (Matches_star EmptyString). now apply IH.
      * rewrite glob_match_star in H. apply orb_true_iff in H as [H|H].
        -- apply (Matches_star EmptyString). now apply IH.
        -- specialize (IHs H). inversion IHs as [|u v ? Hv| | |]; subst.
           apply (Matches_star (String c u) v). exact Hv.
    + destruct s as [|c s]; [discriminate|]. constructor. now apply IH.
    + destruct s as [|d s]; [discriminate|]. simpl in H.
      apply andb_true_iff in H as [Hc H]. apply Ascii.eqb_eq in Hc as ->.
      constructor. now apply IH.
    + destruct s as [|d s]; [discriminate|]. simpl in H.
      apply andb_true_iff in H as [Hc H]. constructor; [exact Hc | now apply IH].
    + discriminate.
Qed.

Lemma glob_match_complete (toks : list token) (s : string) :
  Matches toks s -> glob_match toks s = true.
Proof.
  induction 1 as [|u v toks Hv IH|c s toks Hs IH|c s toks Hs IH
                  |negated items c s toks Hc Hs IH].
  - reflexivity.
  - induction u as [|c u IHu].
    + rewrite glob_match_star. simpl. now rewrite IH.
    + simpl append. rewrite glob_match_star. cbv match. rewrite IHu. apply orb_true_r.
  - exact IH.
  - simpl. now rewrite Ascii.eqb_refl, IH.
  - simpl. now rewrite Hc, IH.
Qed.

(** [fnmatch] decides whole-name glob matching. *)
Lemma fnmatch_spec (name pat : string) :
  fnmatch name pat = true <-> Matches (translate pat) name.
Proof. split; [apply glob_match_sound | apply glob_match_complete]. Qed.

(** A run of stars matches what one star matches. *)
Lemma glob_match_star_star (toks : list token) (s : string) :
  glob_match (Star :: Star :: toks) s = glob_match (Star :: toks) s.
Proof.
  apply Bool.eq_true_iff_eq. split; intros H; apply glob_match_sound in H;
    apply glob_match_complete.
  - inversion H as [|u v ? Hv| | |]; subst.
    inversion Hv as [|u' v' ? Hv'| | |]; subst.
    rewrite <- append_assoc. now constructor.
  - apply (Matches_star EmptyString). exact H.
Qed.

(** Bracket expressions, for every character [c]: a range, a negated range,
    a list, [']'] in the first place, a hyphen in the last place, an empty
    range (which is deleted, so that a ['!'] after it negates), and a bracket
    that is not closed. *)
Lemma fnmatch_range (c : ascii) :
  fnmatch (String c "") "[a-c]"
  = ((97 <=? nat_of_ascii c) && (nat_of_ascii c <=? 99))%nat.
Proof.
  unfold fnmatch. change (translate "[a-c]") with [CharSet false [Range "a" "c"]].
  cbn. now rewrite orb_false_r, andb_true_r.
Qed.

Lemma fnmatch_negated_range (c : ascii) :
  fnmatch (String c "") "[!a-c]"
  = negb ((97 <=? nat_of_ascii c) && (nat_of_ascii c <=? 99))%nat.
Proof.
  unfold fnmatch. change (translate "[!a-c]") with [CharSet true [Range "a" "c"]].
  cbn. now rewrite orb_false_r, andb_true_r.
Qed.

Lemma fnmatch_listed (c : ascii) :
  fnmatch (String c "") "[xy-]"
  = Ascii.eqb c "x" || Ascii.eqb c "y" || Ascii.eqb c "-".
Proof.
  unfold fnmatch.
  change (translate "[xy-]") with [CharSet false [Single "x"; Single "y"; Single "-"]].
  cbn [glob_match in_set existsb item_has xorb].
  now rewrite orb_false_r, andb_true_r, orb_assoc.
Qed.

Lemma fnmatch_close_first (c : ascii) :
  fnmatch (String c "") "[]a]" = Ascii.eqb c "]" || Ascii.eqb c "a".
Proof.
  unfold fnmatch. change (translate "[]a]") with [CharSet false [Single "]"; Single "a"]].
  cbn [glob_match in_set existsb item_has xorb].
  now rewrite orb_false_r, andb_true_r.
Qed.

Lemma fnmatch_empty_range (c : ascii) :
  fnmatch (String c "") "[b-a]" = false
  /\ fnmatch (String c "") "[!b-a]" = true
  /\ fnmatch (String c "") "[b-a!x]" = negb (Ascii.eqb c "x").
Proof.
  unfold fnmatch.
  change (translate "[b-a]") with [Never].
  change (translate "[!b-a]") with [AnyChar].
  change (translate "[b-a!x]") with [CharSet true [Single "x"]].
  cbn [glob_match in_set existsb item_has xorb].
  rewrite orb_false_r, andb_true_r. destruct (Ascii.eqb c "x"); auto.
Qed.

Lemma fnmatch_unclosed (name : string) :
  fnmatch name "[ab" = String.eqb name "[ab".
Proof.
  unfold fnmatch. change (translate "[ab") with [Lit "["; Lit "a"; Lit "b"].
  destruct name as [|c1 [|c2 [|c3 [|c4 name]]]]; cbn [glob_match String.eqb];
    repeat (destruct (Ascii.eqb _ _); cbn [andb]; try reflexivity);
    reflexivity.
Qed.

End GlobFacts.

(** A plain pattern matches its own text only. *)
Lemma fnmatch_plain (pat : string) :
  plain pat = true -> forall name, fnmatch name pat = String.eqb name pat.
Proof.
  unfold fnmatch, translate.
  induction pat as [|c pat IH]; simpl; intros Hp name.
  - destruct name; reflexivity.
  - apply andb_true_iff in Hp as [Hc Hp]. apply negb_true_iff in Hc.
    apply orb_false_iff in Hc as [Hc H3]. apply orb_false_iff in Hc as [H1 H2].
    rewrite H1, H2, H3. destruct name as [|d name]; simpl; [reflexivity|].
    rewrite (IH Hp). destruct (Ascii.eqb d c); reflexivity.
Qed.

(** ** Lemmas on the matcher *)

Section MatcherFacts.

Variable self : Matcher.

Lemma any_rule_matches_spec (name : string) (rs : list string) :
  any_rule_matches name rs = true
  <-> exists rule, In rule rs /\ fnmatch name rule = true.
Proof.
  induction rs as [|r rs IH]; simpl.
  - split; [discriminate | intros [rule [[] _]]].
  - destruct (fnmatch name r) eqn:E.
    + split; [intros _; exists r; auto | reflexivity].
    + rewrite IH. split.
      * intros [rule [Hin Hm]]. exists rule; auto.
      * intros [rule [[<-|Hin] Hm]]; [congruence | exists rule; auto].
Qed.

Lemma is_excluded_orb (name : string) :
  is_excluded self name
  = startswith name "." || negb (extension_matches self name)
    || any_rule_matches name (rules self).
Proof.
  unfold is_excluded.
  destruct (startswith name "."); [reflexivity|].
  destruct (extension_matches self name); reflexivity.
Qed.

Lemma extension_mismatch_spec (name : string) :
  extension_matches self name = false
  <-> exists ext, extension (options self) = Some ext /\ ~ exists p, name = p ++ ext.
Proof.
  unfold extension_matches. destruct (extension (options self)) as [ext|].
  - rewrite endswith_false. split.
    + intros H. exists ext. auto.
    + intros [ext' [E H]]. injection E as <-. exact H.
  - split; [discriminate | intros [ext [E _]]; discriminate].
Qed.

Lemma filter_as_list_filter (items : list string) :
  filter self items = List.filter (is_included self) items.
Proof.
  induction items as [|x items IH]; simpl; [reflexivity|].
  rewrite IH. reflexivity.
Qed.

Lemma filter_Selected (items : list string) :
  Selected (is_included self) items (filter self items).
Proof.
  induction items as [|x items IH]; simpl.
  - constructor.
  - destruct (is_included self x) eqn:E; constructor; assumption.
Qed.

Lemma filter_all_included (items : list string) :
  Forall (fun x => is_included self x = true) items -> filter self items = items.
Proof.
  induction 1 as [|x items Hx _ IH]; simpl; [reflexivity|].
  rewrite Hx, IH. reflexivity.
Qed.

Lemma filter_Forall_included (items : list string) :
  Forall (fun x => is_included self x = true) (filter self items).
Proof.
  induction items as [|x items IH]; simpl; [constructor|].
  destruct (is_included self x) eqn:E; [constructor|]; assumption.
Qed.

End MatcherFacts.

Lemma Selected_functional {A : Type} (keep : A -> bool) (inp out1 out2 : list A) :
  Selected keep inp out1 -> Selected keep inp out2 -> out1 = out2.
Proof.
  intros H1. revert out2.
  induction H1 as [|x inp out Hx _ IH|x inp out Hx _ IH]; intros out2 H2.
  - inversion H2. reflexivity.
  - inversion H2; subst; [f_equal; auto | congruence].
  - inversion H2; subst; [congruence | auto].
Qed.

Lemma Selected_In {A : Type} (keep : A -> bool) (inp out : list A) :
  Selected keep inp out ->
  forall x, In x out <-> In x inp /\ keep x = true.
Proof.
  induction 1 as [|y inp out Hy _ IH|y inp out Hy _ IH]; intros x; simpl.
  - tauto.
  - rewrite IH. split.
    + intros [<-|[Hin Hk]]; auto.
    + intros [[<-|Hin] Hk]; auto.
  - rewrite IH. split.
    + intros [Hin Hk]; auto.
    + intros [[<-|Hin] Hk]; [congruence | auto].
Qed.

(** ** Lemmas on rule loading *)

Lemma keep_rules_Selected (lines : list string) :
  Selected kept_line lines (keep_rules lines).
Proof.
  induction lines as [|l lines IH].
  - constructor.
  - assert (E : truthy l && negb (startswith l "#") = kept_line l).
    { destruct l as [|c l]; simpl; [reflexivity | now rewrite andb_true_r]. }
    cbn [keep_rules]. rewrite E.
    destruct (kept_line l) eqn:K; constructor; assumption.
Qed.

Lemma whitespace_only_kept (line : string) :
  whitespace_only line -> kept_line line = true.
Proof.
  intros [Hne Hb]. destruct line as [|c line]; [congruence|].
  simpl in *. apply andb_true_iff in Hb as [Hc _].
  apply orb_true_iff in Hc as [Hc|Hc]; apply Ascii.eqb_eq in Hc; subst; reflexivity.
Qed.

Lemma read_text_exists (fs : Os.node) (p : Os.Path) (text : string) :
  Os.read_text fs p = Os.Ok text -> Os.path_exists fs p = true.
Proof.
  unfold Os.read_text, Os.path_exists.
  destruct (Os.resolve fs p); [reflexivity | discriminate].
Qed.

(* ------------------------------------------------------------------ *)
(** ** The properties of the matcher *)


(** C2. [filter] returns exactly the subsequence of its input for which
    [is_included] is true, in the input's order.  With the rules ["*.tmp"]
    and ["build"] and no extension,
    [filter(["a.txt", "a.tmp", "build", ".git", "README"])] is
    [["a.txt", "README"]]. *)
Theorem filter_selects_included :
  (forall (self : Matcher) (items : list string),
      Selected (is_included self) items (filter self items)
      /\ (forall out, Selected (is_included self) items out -> out = filter self items)
      /\ filter self items = List.filter (is_included self) items)
  /\ (forall src : string,
        filter {| options := new_MatcherOptions src None; rules := ["*.tmp"; "build"] |}
          ["a.txt"; "a.tmp"; "build"; ".git"; "README"]
        = ["a.txt"; "README"]).
Proof.
  split; [|reflexivity].
  intros self items. split; [apply filter_Selected | split].
  - intros out H. exact (Selected_functional _ _ _ _ H (filter_Selected self items)).
  - apply filter_as_list_filter.
Qed.

(** C3. The loader splits the text of the rules file into lines, discards
    exactly the lines of length zero and the lines whose first character is
    ['#'], and keeps every other line as it is and in the original order, so a
    line of blanks stays as a pattern.  A file with the comment
    ["# ignore drafts"], a blank line and ["draft*"] gives the single rule
    ["draft*"]. *)
Theorem load_rules_keeps_patterns :
  (forall (fs : Os.node) (opts : MatcherOptions) (directory : Os.Path) (text : string),
      Os.read_text fs (Os.joinpath directory (source opts)) = Os.Ok text ->
      new_Matcher fs opts directory
      = Os.Ok {| options := opts; rules := load_rules text |})
  /\ (forall text : string,
        Selected kept_line (splitlines text) (load_rules text)
        /\ (forall line, In line (load_rules text)
                         <-> In line (splitlines text) /\ kept_line line = true)
        /\ (forall line, In line (splitlines text) -> whitespace_only line ->
                         In line (load_rules text)))
  /\ load_rules ("# ignore drafts" ++ String LF (String LF ("draft*" ++ String LF "")))
     = ["draft*"]
  /\ load_rules ("  " ++ String LF ("#x" ++ String CR (String LF (" #y" ++ String LF "Draft*"))))
     = ["  "; " #y"; "Draft*"].
Proof.
  split; [|split; [|split; reflexivity]].
  - intros fs opts directory text H. unfold new_Matcher.
    rewrite (read_text_exists _ _ _ H), H. reflexivity.
  - intros text. unfold load_rules.
    pose proof (keep_rules_Selected (splitlines text)) as HS.
    split; [exact HS | split].
    + apply (Selected_In _ _ _ HS).
    + intros line Hin Hw. apply (Selected_In _ _ _ HS).
      split; [exact Hin | now apply whitespace_only_kept].
Qed.

Lemma load_rules_keeps_patterns_witness :
  new_Matcher example_fs (new_MatcherOptions ".mdignore" None) ["docs"]
  = Os.Ok {| options := new_MatcherOptions ".mdignore" None; rules := ["draft*"] |}.
Proof.
  exact (proj1 load_rules_keeps_patterns example_fs
           (new_MatcherOptions ".mdignore" None) ["docs"]
           ("# ignore drafts" ++ String LF (String LF "draft*")) eq_refl).
Defined.

(** C4. A name whose first character is ['.'] is excluded, whatever the rule
    set and the extension option are. *)
Theorem hidden_name_excluded :
  forall (src : string) (ext : option string) (rs : list string) (rest : string),
    is_excluded {| options := {| source := src; extension := ext |}; rules := rs |}
      (String "." rest)
    = true.
Proof. intros src ext rs rest. reflexivity. Qed.

(** C5. [is_included(n)] is the negation of [is_excluded(n)], for every name
    and every configuration; each of the two is [True] or [False] and
    exactly one of them is [True]. *)
Theorem is_included_negates_is_excluded :
  forall (self : Matcher) (n : string),
    is_included self n = negb (is_excluded self n)
    /\ (is_excluded self n = true \/ is_excluded self n = false)
    /\ (is_included self n = true <-> is_excluded self n = false)
    /\ (is_included self n = false <-> is_excluded self n = true).
Proof.
  intros self n. unfold is_included.
  destruct (is_excluded self n); simpl; intuition congruence.
Qed.

(** C6. When [directory / source] does not exist, the construction of the
    matcher succeeds and its rule set is empty; exclusion is then decided by
    the hidden-name check and the extension check alone. *)
Theorem missing_rules_file :
  forall (fs : Os.node) (opts : MatcherOptions) (directory : Os.Path),
    Os.path_exists fs (Os.joinpath directory (source opts)) = false ->
    exists self,
      new_Matcher fs opts directory = Os.Ok self
      /\ options self = opts
      /\ rules self = []
      /\ forall n, is_excluded self n
                   = startswith n "." || negb (extension_matches self n).
Proof.
  intros fs opts directory H. unfold new_Matcher. rewrite H.
  eexists. split; [reflexivity|]. split; [reflexivity|]. split; [reflexivity|].
  intros n. rewrite is_excluded_orb. simpl. apply orb_false_r.
Qed.

Lemma missing_rules_file_witness :
  exists self,
    new_Matcher example_fs (new_MatcherOptions ".mdignore" (Some "md")) ["empty"]
    = Os.Ok self
    /\ options self = new_MatcherOptions ".mdignore" (Some "md")
    /\ rules self = []
    /\ forall n, is_excluded self n
                 = startswith n "." || negb (extension_matches self n).
Proof.
  exact (missing_rules_file example_fs (new_MatcherOptions ".mdignore" (Some "md"))
           ["empty"] eq_refl).
Defined.

(** C7. [MatcherOptions] constructed with an extension stores one that
    begins with ['.']: an extension that already starts with ['.'] is kept,
    any other gets ['.'] in front (["md"] becomes [".md"]); no extension
    stays none. *)
Theorem extension_normalized :
  forall src : string,
    (forall ext : string,
        exists stored,
          extension (new_MatcherOptions src (Some ext)) = Some stored
          /\ (exists rest, stored = String "." rest)
          /\ ((exists rest, ext = String "." rest) -> stored = ext)
          /\ ((~ exists rest, ext = String "." rest) -> stored = "." ++ ext))
    /\ extension (new_MatcherOptions src (Some "md")) = Some ".md"
    /\ extension (new_MatcherOptions src None) = None
    /\ (forall ext, source (new_MatcherOptions src ext) = src).
Proof.
  intros src. split; [|split; [reflexivity | split; [reflexivity|]]].
  - intros ext. unfold new_MatcherOptions, post_init. cbn [extension source].
    destruct (startswith ext ".") eqn:E; cbn [negb extension].
    + exists ext. apply startswith_char in E.
      split; [reflexivity | split; [exact E | split; [reflexivity|]]].
      intros H. now destruct H.
    + exists ("." ++ ext).
      split; [reflexivity | split; [now exists ext | split; [|reflexivity]]].
      intros H. apply startswith_char in H. congruence.
  - intros [ext|]; unfold new_MatcherOptions, post_init; cbn [extension source];
      [destruct (negb (startswith ext "."))|]; reflexivity.
Qed.

Lemma extension_normalized_witness :
  extension (new_MatcherOptions ".mdignore" (Some ".md")) = Some ".md"
  /\ extension (new_MatcherOptions ".mdignore" (Some "md")) = Some ".md".
Proof.
  destruct (proj1 (extension_normalized ".mdignore") ".md") as [s1 [E1 [_ [K1 _]]]].
  destruct (proj1 (extension_normalized ".mdignore") "md") as [s2 [E2 [_ [_ K2]]]].
  split.
  - rewrite E1. f_equal. apply K1. exists "md". reflexivity.
  - rewrite E2. f_equal. apply K2. intros [rest H]. discriminate H.
Defined.

(** C8. [filter] is idempotent: filtering the output of [filter] again
    returns it unchanged, for every input and every configuration. *)
Theorem filter_idempotent :
  forall (self : Matcher) (xs : list string),
    filter self (filter self xs) = filter self xs.
Proof.
  intros self xs. apply filter_all_included, filter_Forall_included.
Qed.

(** C9. [scandir(path)] returns [filter] applied to the names of the entries
    of [path] itself, files and subdirectories alike.  When [path] cannot be
    listed (it is not found, it is not a directory, or permission is denied)
    the call raises the error of the file system and returns no name: it
    either raises or returns the filtered names of the whole listing. *)
Theorem scandir_filters_listing :
  forall (fs : Os.node) (self : Matcher) (path : Os.Path),
    (forall children,
        Os.resolve fs path = Os.Ok (Os.Dir true children) ->
        scandir fs self path = Os.Ok (filter self (map fst children))
        /\ forall fs' path' children',
            Os.resolve fs' path' = Os.Ok (Os.Dir true children') ->
            map fst children' = map fst children ->
            scandir fs' self path' = scandir fs self path)
    /\ (forall e, Os.resolve fs path = Os.Raise e -> scandir fs self path = Os.Raise e)
    /\ (forall readable content,
          Os.resolve fs path = Os.Ok (Os.File readable content) ->
          scandir fs self path = Os.Raise Os.NotADirectoryError)
    /\ (forall children,
          Os.resolve fs path = Os.Ok (Os.Dir false children) ->
          scandir fs self path = Os.Raise Os.PermissionError)
    /\ ((exists e, Os.scandir fs path = Os.Raise e /\ scandir fs self path = Os.Raise e)
        \/ (exists entries,
              Os.scandir fs path = Os.Ok entries
              /\ scandir fs self path = Os.Ok (filter self (map Os.name entries)))).
Proof.
  intros fs self path.
  assert (Hnames : forall children,
             map Os.name (map Os.entry_of children) = map fst children).
  { intros children. rewrite map_map. reflexivity. }
  unfold scandir, Os.scandir.
  split; [|split; [|split; [|split]]].
  - intros children H. rewrite H, Hnames. split; [reflexivity|].
    intros fs' path' children' H' E. unfold scandir, Os.scandir.
    rewrite H', !Hnames, E. reflexivity.
  - intros e H. rewrite H. reflexivity.
  - intros readable content H. rewrite H. reflexivity.
  - intros children H. rewrite H. reflexivity.
  - destruct (Os.resolve fs path) as [[readable content|[|] children]|e].
    + left. eexists. split; reflexivity.
    + right. eexists. split; reflexivity.
    + left. eexists. split; reflexivity.
    + left. eexists. split; reflexivity.
Qed.

Lemma scandir_filters_listing_witness :
  scandir example_fs
    {| options := new_MatcherOptions ".mdignore" None; rules := ["draft*"] |} ["docs"]
  = Os.Ok ["a.md"; "img"; "private"]
  /\ scandir example_fs
       {| options := new_MatcherOptions ".mdignore" None; rules := ["draft*"] |}
       ["docs"; "missing"]
     = Os.Raise Os.FileNotFoundError
  /\ scandir example_fs
       {| options := new_MatcherOptions ".mdignore" None; rules := ["draft*"] |}
       ["docs"; "a.md"]
     = Os.Raise Os.NotADirectoryError
  /\ scandir example_fs
       {| options := new_MatcherOptions ".mdignore" None; rules := ["draft*"] |}
       ["docs"; "private"]
     = Os.Raise Os.PermissionError.
Proof.
  split; [|split; [|split]].
  - exact (proj1 (proj1 (scandir_filters_listing example_fs _ ["docs"]) _ eq_refl)).
  - exact (proj1 (proj2 (scandir_filters_listing example_fs _ ["docs"; "missing"]))
             _ eq_refl).
  - exact (proj1 (proj2 (proj2 (scandir_filters_listing example_fs _ ["docs"; "a.md"])))
             _ _ eq_refl).
  - exact (proj1 (proj2 (proj2 (proj2
             (scandir_filters_listing example_fs _ ["docs"; "private"])))) _ eq_refl).
Defined.

(** C10. The empty extension [""] is normalized to ["."]: it is not the
    absence of an extension filter, and every name that does not end with
    ['.'] then fails [extension_matches] and is excluded. *)
Theorem empty_extension_is_dot :
  forall src : string,
    new_MatcherOptions src (Some "") = {| source := src; extension := Some "." |}
    /\ extension (new_MatcherOptions src (Some "")) <> None
    /\ forall (rs : list string) (n : string),
        (~ exists p, n = p ++ ".") ->
        extension_matches {| options := new_MatcherOptions src (Some ""); rules := rs |} n
        = false
        /\ is_excluded {| options := new_MatcherOptions src (Some ""); rules := rs |} n
           = true.
Proof.
  intros src. split; [reflexivity | split; [discriminate|]].
  intros rs n H.
  assert (E : extension_matches
                {| options := new_MatcherOptions src (Some ""); rules := rs |} n = false).
  { apply extension_mismatch_spec. exists ".". split; [reflexivity | exact H]. }
  split; [exact E|]. rewrite is_excluded_orb, E. apply orb_true_iff. left.
  apply orb_true_r.
Qed.

Lemma empty_extension_is_dot_witness :
  extension_matches {| options := new_MatcherOptions ".mdignore" (Some ""); rules := [] |}
    "a.md" = false
  /\ is_excluded {| options := new_MatcherOptions ".mdignore" (Some ""); rules := [] |}
       "a.md" = true.
Proof.
  apply (proj2 (proj2 (empty_extension_is_dot ".mdignore")) [] "a.md").
  intros [p H].
  assert (L : endswith "a.md" "." = true) by (apply endswith_spec; now exists p).
  discriminate L.
Defined.

(* ------------------------------------------------------------------ *)
(** ** Further properties of the options, the loader and the matcher *)

Section MoreFacts.

Lemma keep_test_kept_line (l : string) :
  truthy l && negb (startswith l "#") = kept_line l.
Proof. destruct l as [|c l]; simpl; [reflexivity | now rewrite andb_true_r]. Qed.

Lemma kept_line_spec (l : string) :
  kept_line l = true <-> l <> EmptyString /\ forall rest, l <> String "#" rest.
Proof.
  destruct l as [|c l]; simpl.
  - split; [discriminate | intros [H _]; congruence].
  - rewrite negb_true_iff, Ascii.eqb_neq. split.
    + intros H. split; [discriminate | intros rest E; congruence].
    + intros [_ H] E. subst c. now apply (H l).
Qed.

Lemma load_rules_Forall (text : string) :
  Forall (fun r => kept_line r = true /\ no_linebreak r = true) (load_rules text).
Proof.
  apply Forall_forall. intros r Hin.
  apply (Selected_In _ _ _ (keep_rules_Selected (splitlines text))) in Hin.
  destruct Hin as [Hin Hk]. split; [exact Hk|].
  pose proof (splitlines_no_linebreak text) as HF.
  rewrite Forall_forall in HF. now apply HF.
Qed.

Lemma stored_extension (src ext : string) :
  exists rest, extension (new_MatcherOptions src (Some ext)) = Some (String "." rest).
Proof.
  unfold new_MatcherOptions, post_init. cbn [extension source].
  destruct (startswith ext ".") eqn:E; cbn [negb extension].
  - apply startswith_char in E as [rest ->]. now exists rest.
  - now exists ext.
Qed.

Lemma fnmatch_star (name : string) : fnmatch name "*" = true.
Proof.
  apply fnmatch_spec. change (translate "*") with [Star].
  rewrite <- (append_empty_r name). apply Matches_star. constructor.
Qed.

Lemma any_rule_matches_incl (name : string) (rs rs' : list string) :
  incl rs rs' -> any_rule_matches name rs = true -> any_rule_matches name rs' = true.
Proof.
  intros Hi H. apply any_rule_matches_spec in H as [rule [Hin Hm]].
  apply any_rule_matches_spec. exists rule. split; [now apply Hi | exact Hm].
Qed.

Lemma any_rule_matches_plain (name : string) (rs : list string) :
  Forall (fun r => plain r = true) rs ->
  (any_rule_matches name rs = true <-> In name rs).
Proof.
  intros HP. rewrite any_rule_matches_spec. rewrite Forall_forall in HP. split.
  - intros [rule [Hin Hm]]. rewrite (fnmatch_plain _ (HP _ Hin)) in Hm.
    apply String.eqb_eq in Hm. now subst.
  - intros Hin. exists name. split; [exact Hin|].
    rewrite (fnmatch_plain _ (HP _ Hin)). apply String.eqb_refl.
Qed.

End MoreFacts.

(** X1. [__post_init__] is idempotent: normalizing options that are already
    normalized changes nothing (no second ['.'] is added). *)
Theorem post_init_idempotent :
  forall self : MatcherOptions, post_init (post_init self) = post_init self.
Proof.
  intros [src [ext|]]; unfold post_init; cbn [extension source]; [|reflexivity].
  destruct (startswith ext ".") eqn:E; cbn [negb extension source].
  - now rewrite E.
  - reflexivity.
Qed.

(** X2. The leading ['.'] of the extension is optional: an extension that
    does not start with ['.'] gives the same options as that extension with
    ['.'] in front. *)
Theorem extension_dot_optional :
  forall (src ext : string),
    (forall rest, ext <> String "." rest) ->
    new_MatcherOptions src (Some ext) = new_MatcherOptions src (Some ("." ++ ext)).
Proof.
  intros src ext H. unfold new_MatcherOptions, post_init. cbn [extension source].
  destruct (startswith ext ".") eqn:E.
  - apply startswith_char in E as [rest E]. now destruct (H rest).
  - reflexivity.
Qed.

Lemma extension_dot_optional_witness :
  new_MatcherOptions ".mdignore" (Some "md") = new_MatcherOptions ".mdignore" (Some ".md").
Proof.
  apply (extension_dot_optional ".mdignore" "md"). intros rest H. discriminate H.
Defined.



(** X4. Every rule of a constructed matcher is a non-empty line that does not
    start with ['#'] and holds no line boundary; the matcher keeps the options
    it was given. *)
Theorem constructed_rules_wellformed :
  forall (fs : Os.node) (opts : MatcherOptions) (directory : Os.Path) (self : Matcher),
    new_Matcher fs opts directory = Os.Ok self ->
    options self = opts
    /\ Forall (fun rule => rule <> EmptyString
                           /\ (forall rest, rule <> String "#" rest)
                           /\ no_linebreak rule = true)
         (rules self).
Proof.
  intros fs opts directory self. unfold new_Matcher.
  destruct (Os.path_exists fs _).
  - destruct (Os.read_text fs _) as [text|e]; [|discriminate].
    intros H. injection H as <-. split; [reflexivity|]. cbn [rules].
    eapply Forall_impl; [|apply load_rules_Forall].
    intros r [Hk Hn]. apply kept_line_spec in Hk as [H1 H2]. auto.
  - intros H. injection H as <-. split; [reflexivity | constructor].
Qed.

Lemma constructed_rules_wellformed_witness :
  options {| options := new_MatcherOptions ".mdignore" None; rules := ["draft*"] |}
  = new_MatcherOptions ".mdignore" None
  /\ Forall (fun rule => rule <> EmptyString
                         /\ (forall rest, rule <> String "#" rest)
                         /\ no_linebreak rule = true)
       ["draft*"].
Proof.
  exact (constructed_rules_wellformed example_fs (new_MatcherOptions ".mdignore" None)
           ["docs"] _ eq_refl).
Defined.

(** X5. A rules file is read line by line: a first line ended by a line feed
    gives a rule when it is not empty and not a comment, and gives nothing
    otherwise; the rest of the file is loaded in the same way after it. *)
Theorem load_rules_first_line :
  forall (line rest : string),
    no_linebreak line = true ->
    load_rules (line ++ String LF rest)
    = ((if kept_line line then [line] else []) ++ load_rules rest)%list.
Proof.
  intros line rest H. unfold load_rules, splitlines.
  rewrite (splitlines_from_lf _ _ _ H). cbn [append keep_rules].
  rewrite keep_test_kept_line. destruct (kept_line line); reflexivity.
Qed.

Lemma load_rules_first_line_witness :
  load_rules ("# ignore drafts" ++ String LF ("draft*" ++ String LF "build"))
  = load_rules ("draft*" ++ String LF "build").
Proof.
  exact (load_rules_first_line "# ignore drafts" ("draft*" ++ String LF "build") eq_refl).
Defined.

(** X6. [filter] works name by name: filtering a concatenation is the
    concatenation of the filtered parts. *)
Theorem filter_app :
  forall (self : Matcher) (xs ys : list string),
    filter self (xs ++ ys) = (filter self xs ++ filter self ys)%list.
Proof.
  intros self xs ys. induction xs as [|x xs IH]; simpl; [reflexivity|].
  rewrite IH. destruct (is_included self x); reflexivity.
Qed.


(** X8. The order of the rules and their repetition do not matter: two rule
    lists with the same members exclude the same names, under the same
    options. *)
Theorem rules_order_irrelevant :
  forall (opts : MatcherOptions) (rs rs' : list string),
    (forall rule, In rule rs <-> In rule rs') ->
    forall n,
      is_excluded {| options := opts; rules := rs |} n
      = is_excluded {| options := opts; rules := rs' |} n.
Proof.
  intros opts rs rs' H n. rewrite !is_excluded_orb. cbn [rules].
  unfold extension_matches. cbn [options]. f_equal.
  destruct (any_rule_matches n rs) eqn:E1, (any_rule_matches n rs') eqn:E2;
    try reflexivity.
  - rewrite <- E2. symmetry.
    apply (any_rule_matches_incl n rs rs'); [intros r; apply H | exact E1].
  - rewrite <- E1.
    apply (any_rule_matches_incl n rs' rs); [intros r; apply H | exact E2].
Qed.

Lemma rules_order_irrelevant_witness :
  is_excluded {| options := new_MatcherOptions ".mdignore" None;
                 rules := ["*.tmp"; "build"] |} "build"
  = is_excluded {| options := new_MatcherOptions ".mdignore" None;
                   rules := ["build"; "*.tmp"; "build"] |} "build".
Proof.
  apply (rules_order_irrelevant (new_MatcherOptions ".mdignore" None)
           ["*.tmp"; "build"] ["build"; "*.tmp"; "build"]).
  intros rule. simpl. tauto.
Defined.

(** X9. Rules only exclude: with more rules and the same options, every name
    that was excluded stays excluded (no rule brings a name back), and
    filtering with the larger rule set is filtering the output of the smaller
    one again. *)
Theorem more_rules_exclude_more :
  forall (opts : MatcherOptions) (rs rs' : list string),
    incl rs rs' ->
    (forall n, is_excluded {| options := opts; rules := rs |} n = true ->
               is_excluded {| options := opts; rules := rs' |} n = true)
    /\ (forall items,
          filter {| options := opts; rules := rs' |} items
          = filter {| options := opts; rules := rs' |}
              (filter {| options := opts; rules := rs |} items)).
Proof.
  intros opts rs rs' Hi.
  assert (Hmono : forall n,
             is_excluded {| options := opts; rules := rs |} n = true ->
             is_excluded {| options := opts; rules := rs' |} n = true).
  { intros n. rewrite !is_excluded_orb. cbn [rules].
    unfold extension_matches. cbn [options].
    rewrite !orb_true_iff. intros [H|H]; [now left | right].
    now apply (any_rule_matches_incl n rs rs'). }
  split; [exact Hmono|].
  induction items as [|x items IH]; [reflexivity|].
  cbn [filter]. unfold is_included.
  destruct (is_excluded {| options := opts; rules := rs |} x) eqn:E; cbn [negb].
  - rewrite (Hmono x E). cbn [negb]. exact IH.
  - cbn [filter]. unfold is_included. rewrite <- IH. reflexivity.
Qed.

Lemma more_rules_exclude_more_witness :
  filter {| options := new_MatcherOptions ".mdignore" None; rules := ["*.tmp"; "build"] |}
    ["a.txt"; "a.tmp"; "build"]
  = filter {| options := new_MatcherOptions ".mdignore" None; rules := ["*.tmp"; "build"] |}
      (filter {| options := new_MatcherOptions ".mdignore" None; rules := ["build"] |}
         ["a.txt"; "a.tmp"; "build"]).
Proof.
  apply (proj2 (more_rules_exclude_more (new_MatcherOptions ".mdignore" None)
                  ["build"] ["*.tmp"; "build"]
                  (fun r H => or_intror H))).
Defined.

(** X10. The rule ["*"] excludes every name: [filter] then returns the empty
    list for every input. *)
Theorem star_rule_excludes_all :
  forall self : Matcher,
    In "*" (rules self) ->
    (forall n, is_excluded self n = true)
    /\ (forall items, filter self items = []).
Proof.
  intros self H.
  assert (Hall : forall n, is_excluded self n = true).
  { intros n. rewrite is_excluded_orb. apply orb_true_iff. right.
    apply any_rule_matches_spec. exists "*". split; [exact H | apply fnmatch_star]. }
  split; [exact Hall|].
  induction items as [|x items IH]; [reflexivity|].
  cbn [filter]. unfold is_included. rewrite (Hall x). exact IH.
Qed.

Lemma star_rule_excludes_all_witness :
  filter {| options := new_MatcherOptions ".mdignore" None; rules := ["build"; "*"] |}
    ["a.txt"; "README"]
  = [].
Proof.
  apply (proj2 (star_rule_excludes_all
                  {| options := new_MatcherOptions ".mdignore" None;
                     rules := ["build"; "*"] |}
                  (or_intror (or_introl eq_refl)))).
Defined.

(** X11. Rules without ['*'], ['?'] and ['['] are compared as plain text: when
    every rule is such, a name is excluded exactly when it is hidden, fails
    the extension check, or is itself one of the rules. *)
Theorem plain_rules_are_names :
  forall self : Matcher,
    Forall (fun rule => plain rule = true) (rules self) ->
    forall n,
      is_excluded self n = true
      <-> (exists rest, n = String "." rest)
          \/ (exists ext, extension (options self) = Some ext
                          /\ ~ exists p, n = p ++ ext)
          \/ In n (rules self).
Proof.
  intros self HP n. rewrite is_excluded_orb, !orb_true_iff, negb_true_iff.
  rewrite startswith_char, extension_mismatch_spec, (any_rule_matches_plain n _ HP).
  tauto.
Qed.

Lemma plain_rules_are_names_witness :
  is_excluded {| options := new_MatcherOptions ".mdignore" None;
                 rules := ["build"; "!keep"] |} "!keep" = true.
Proof.
  assert (HP : Forall (fun rule => plain rule = true) ["build"; "!keep"])
    by (repeat constructor).
  apply (proj2 (plain_rules_are_names
                  {| options := new_MatcherOptions ".mdignore" None;
                     rules := ["build"; "!keep"] |} HP "!keep")).
  right. right. right. left. reflexivity.
Defined.

(** X12. Under options constructed with an extension, an included name is a
    non-empty stem followed by the stored extension, and the stem does not
    start with ['.']; a name that is only the extension is never included. *)
Theorem included_name_has_stem :
  forall (src ext : string) (rs : list string) (n : string),
    is_included {| options := new_MatcherOptions src (Some ext); rules := rs |} n = true ->
    exists stem stored,
      extension (new_MatcherOptions src (Some ext)) = Some stored
      /\ n = stem ++ stored
      /\ stem <> EmptyString
      /\ forall rest, stem <> String "." rest.
Proof.
  intros src ext rs n H. unfold is_included in H.
  apply negb_true_iff in H. rewrite is_excluded_orb in H.
  apply orb_false_iff in H as [H _]. apply orb_false_iff in H as [Hd He].
  apply negb_false_iff in He. unfold extension_matches in He. cbn [options] in He.
  destruct (stored_extension src ext) as [rest Hs]. rewrite Hs in He.
  apply endswith_spec in He as [stem Hn].
  exists stem, (String "." rest). split; [exact Hs|]. split; [exact Hn|].
  split.
  - intros ->. simpl in Hn. subst n. discriminate Hd.
  - intros r ->. simpl in Hn. subst n. discriminate Hd.
Qed.

Lemma included_name_has_stem_witness :
  exists stem stored,
    extension (new_MatcherOptions ".mdignore" (Some "md")) = Some stored
    /\ "a.md" = stem ++ stored
    /\ stem <> EmptyString
    /\ forall rest, stem <> String "." rest.
Proof.
  exact (included_name_has_stem ".mdignore" "md" [] "a.md" eq_refl).
Defined.

(** X13. [filter] returns its input unchanged exactly when no name of the
    input is excluded; its output is never longer than its input. *)
Theorem filter_unchanged_iff :
  forall (self : Matcher) (items : list string),
    (filter self items = items
     <-> forall n, In n items -> is_excluded self n = false)
    /\ List.length (filter self items) <= List.length items.
Proof.
  intros self items.
  assert (Hlen : forall l, List.length (filter self l) <= List.length l).
  { induction l as [|x l IH]; simpl; [lia|].
    destruct (is_included self x); simpl; lia. }
  split; [|apply Hlen]. split.
  - intros E n Hin. rewrite <- E in Hin.
    apply (Selected_In _ _ _ (filter_Selected self items)) in Hin as [_ Hk].
    unfold is_included in Hk. now apply negb_true_iff.
  - intros H. apply filter_all_included. apply Forall_forall. intros n Hin.
    unfold is_included. now rewrite (H n Hin).
Qed.
